(** * Currency converter: rate provider and converter (main.cpp)

    A shallow embedding of [StaticRateProvider] and [CurrencyConverter].
    C++ [double] is the kernel's binary64 [float]; [std::map<std::string, _>]
    is a [gmap string _]; a thrown [std::runtime_error] is a value of
    [exception]; a mutating member function returns its outcome together
    with the object as it is when the call exits. *)

From Stdlib Require Import Floats Ascii.
From stdpp Require Import gmap strings list fin_maps sorting.

#[local] Set Warnings "-inexact-float".
Open Scope string_scope.

(** ** Exceptions and outcomes *)

(** Every failure of the core is a [std::runtime_error] carrying a message. *)
Inductive exception : Type :=
| runtime_error (what : string).

Definition what (e : exception) : string :=
  match e with runtime_error msg => msg end.

(** The result of a call: an exception that escaped, or the returned value. *)
Definition outcome (A : Type) : Type := (exception + A)%type.

Definition throw {A : Type} (e : exception) : outcome A := inl e.
Definition returns {A : Type} (a : A) : outcome A := inr a.

(** The three errors of the core, as the source raises them. *)
Definition UnsupportedCurrencyError : exception :=
  runtime_error "Unsupported currency code".
Definition InvalidRateError : exception :=
  runtime_error "Rate must be positive".
Definition NegativeAmountError : exception :=
  runtime_error "Amount cannot be negative".
Definition UnsupportedOperationError : exception :=
  runtime_error "Custom rates not supported by this provider".

(** ** ExchangeRateProvider: the interface *)

Module ExchangeRateProvider.

(** [getRate] is a const member function; [setCustomRate] mutates the
    provider, so it yields the provider as left by the call. *)
Class interface (P : Type) : Type := {
  getRate : P -> string -> string -> outcome float;
  setCustomRate : string -> string -> float -> P -> outcome unit * P
}.

(** The body [setCustomRate] has in the base class. *)
Definition setCustomRate_default {P : Type}
    (from to : string) (rate : float) (this : P) : outcome unit * P :=
  (throw UnsupportedOperationError, this).

End ExchangeRateProvider.

(** ** StaticRateProvider *)

Record StaticRateProvider : Type := mkStaticRateProvider {
  baseCurrencyCode : string;
  baseRates : gmap string float;
  customRates : gmap string float
}.

Module StaticRateProvider.

Definition makeKey (from to : string) : string :=
  from +:+ "->" +:+ to.

(** The constructor: the assignments to [baseRates] in source order. *)
Definition new (baseCode : string) : StaticRateProvider :=
  {| baseCurrencyCode := baseCode;
     baseRates :=
       <["CAD" := 1.34%float]>
         (<["AUD" := 1.47%float]>
            (<["JPY" := 141.50%float]>
               (<["GBP" := 0.79%float]>
                  (<["INR" := 83.10%float]>
                     (<["EUR" := 0.92%float]>
                        (<[baseCode := 1.0%float]> ∅))))));
     customRates := ∅ |}.

(** The default argument of the constructor. *)
Definition default : StaticRateProvider := new "USD".

Definition registerCurrency (code : string) (rateVsBase : float)
    (this : StaticRateProvider) : StaticRateProvider :=
  {| baseCurrencyCode := baseCurrencyCode this;
     baseRates := <[code := rateVsBase]> (baseRates this);
     customRates := customRates this |}.

(** [std::map] iterates in ascending key order. *)
Definition getSupportedCodes (this : StaticRateProvider) : list string :=
  merge_sort (λ a b, Is_true (String.leb a b))
             (elements (dom (baseRates this))).

Definition getRate (this : StaticRateProvider) (from to : string)
    : outcome float :=
  if decide (from = to) then returns 1.0%float
  else
    match customRates this !! makeKey from to with
    | Some custom => returns custom
    | None =>
        match baseRates this !! from, baseRates this !! to with
        | Some rateFrom, Some rateTo => returns (rateTo / rateFrom)%float
        | _, _ => throw UnsupportedCurrencyError
        end
    end.

Definition setCustomRate (from to : string) (rate : float)
    (this : StaticRateProvider) : outcome unit * StaticRateProvider :=
  if (rate <=? 0.0)%float then (throw InvalidRateError, this)
  else
    (returns tt,
     {| baseCurrencyCode := baseCurrencyCode this;
        baseRates := baseRates this;
        customRates := <[makeKey from to := rate]> (customRates this) |}).

End StaticRateProvider.

#[export] Instance StaticRateProvider_interface
    : ExchangeRateProvider.interface StaticRateProvider :=
  {| ExchangeRateProvider.getRate := StaticRateProvider.getRate;
     ExchangeRateProvider.setCustomRate := StaticRateProvider.setCustomRate |}.

(** ** CurrencyConverter *)

(** What a member function of the converter does with the provider it holds
    a reference to: it returns, it throws, or it calls the provider's
    [getRate] and goes on with the rate it gets back. *)
Inductive action (A : Type) : Type :=
| Return (a : A)
| Throw (e : exception)
| CallGetRate (from to : string) (k : float -> action A).

Arguments Return {A} a.
Arguments Throw {A} e.
Arguments CallGetRate {A} from to k.

Section Perform.
Context {P : Type} `{ExchangeRateProvider.interface P}.
Variable rateProvider : P.

(** Running an action against a provider; an exception thrown by
    [getRate] is not caught, so it ends the action. *)
Fixpoint perform {A : Type} (a : action A) : outcome A :=
  match a with
  | Return v => returns v
  | Throw e => throw e
  | CallGetRate from to k =>
      match ExchangeRateProvider.getRate rateProvider from to with
      | inl e => throw e
      | inr rate => perform (k rate)
      end
  end.

(** The [getRate] calls issued while running, oldest first. *)
Fixpoint getRate_calls {A : Type} (a : action A) : list (string * string) :=
  match a with
  | Return _ | Throw _ => []
  | CallGetRate from to k =>
      (from, to) ::
      match ExchangeRateProvider.getRate rateProvider from to with
      | inl _ => []
      | inr rate => getRate_calls (k rate)
      end
  end.
End Perform.

Module CurrencyConverter.

Definition convert_body (from to : string) (amount : float) : action float :=
  if (amount <? 0.0)%float then Throw NegativeAmountError
  else CallGetRate from to (λ rate, Return (amount * rate)%float).

Definition convert {P : Type} `{ExchangeRateProvider.interface P}
    (rateProvider : P)
    (from to : string) (amount : float) : outcome float :=
  perform rateProvider (convert_body from to amount).

End CurrencyConverter.

(** ** Sequences of calls on a provider *)

Inductive request : Type :=
| RegisterCurrency (code : string) (rateVsBase : float)
| SetCustomRate (from to : string) (rate : float)
| GetRate (from to : string)
| GetSupportedCodes.

(** The provider after one call; a call that throws leaves it as it was at
    the throw. *)
Definition serve (this : StaticRateProvider) (c : request)
    : StaticRateProvider :=
  match c with
  | RegisterCurrency code rateVsBase =>
      StaticRateProvider.registerCurrency code rateVsBase this
  | SetCustomRate from to rate =>
      snd (StaticRateProvider.setCustomRate from to rate this)
  | GetRate _ _ => this
  | GetSupportedCodes => this
  end.

(** The providers that calls satisfying [allowed] can produce from a freshly
    constructed one. *)
Inductive reachable_by (allowed : request -> Prop) (baseCode : string)
    : StaticRateProvider -> Prop :=
| reachable_new :
    reachable_by allowed baseCode (StaticRateProvider.new baseCode)
| reachable_serve this c :
    reachable_by allowed baseCode this ->
    allowed c ->
    reachable_by allowed baseCode (serve this c).

Definition any_request (c : request) : Prop := True.

(** Calls that do not re-register the base code with another value. *)
Definition keeps_base (baseCode : string) (c : request) : Prop :=
  match c with
  | RegisterCurrency code rateVsBase =>
      code = baseCode -> rateVsBase = 1.0%float
  | _ => True
  end.

(** The codes the constructor assigns after the base code. *)
Definition seedCodes : list string :=
  ["EUR"; "INR"; "GBP"; "JPY"; "AUD"; "CAD"].

(** ** Predicates used to state the properties *)

(** A double that is +0.0 or a positive finite number. *)
Definition is_finite_nonneg (x : float) : bool :=
  match classify x with
  | PNormal | PSubn | PZero => true
  | _ => false
  end.

(** The codes among [from] and [to] that the rate table does not have. *)
Definition unknown_codes (this : StaticRateProvider) (from to : string)
    : list string :=
  filter (λ code, baseRates this !! code = None) [from; to].

(** Whether [code] occurs in the text [msg]. *)
Fixpoint occurs_in (code msg : string) : bool :=
  String.prefix code msg ||
  match msg with
  | EmptyString => false
  | String _ rest => occurs_in code rest
  end.

(** A code without the character '-'. *)
Fixpoint dash_free (code : string) : bool :=
  match code with
  | EmptyString => true
  | String c rest => negb (Ascii.eqb c "-"%char) && dash_free rest
  end.

(** ** Further definitions for the rate provider *)

(** The order [std::map] keeps its keys in: bytewise lexicographic. *)
Definition code_le : relation string := λ a b, Is_true (String.leb a b).
Definition code_lt : relation string := λ a b, Is_true (String.ltb a b).

(** The provider after a sequence of calls, oldest first. *)
Definition serve_all (this : StaticRateProvider) (cs : list request)
    : StaticRateProvider :=
  foldl serve this cs.

(** ** Currency *)

Module Currency.

(** The three private fields, named by their getters. *)
Record t : Type := mk {
  getCode : string;
  getName : string;
  getSymbol : string
}.

End Currency.

(** ** ConverterApp *)

(** What is written to [std::cout]: a piece of text, or a [double] written
    under [std::fixed] and [std::setprecision(2)] (the only way the
    application writes a [double]). *)
Inductive output : Type :=
| Text (s : string)
| Fixed2 (x : float).

Definition nl : string := String (ascii_of_N 10) EmptyString.

(** A text followed by a newline. *)
Definition line (s : string) : string := s +:+ nl.

Fixpoint spaces (n : nat) : string :=
  match n with
  | O => EmptyString
  | S n' => String " "%char (spaces n')
  end.

(** [std::left << std::setw(n) << s]: [s] padded with spaces on the right
    up to [n] characters, never cut. *)
Definition setw_left (n : nat) (s : string) : string :=
  s +:+ spaces (n - String.length s).

(** [toupper] in the "C" locale, which the program never changes: the
    bytes 'a' to 'z' move to 'A' to 'Z', every other byte stays. *)
Definition toupper (c : ascii) : ascii :=
  let n := N_of_ascii c in
  if ((97 <=? n) && (n <=? 122))%N then ascii_of_N (n - 32) else c.

Fixpoint uppercase (code : string) : string :=
  match code with
  | EmptyString => EmptyString
  | String c rest => String (toupper c) (uppercase rest)
  end.

(** Whether a text has one of the bytes 'a' to 'z'. *)
Fixpoint has_lower (s : string) : bool :=
  match s with
  | EmptyString => false
  | String c rest =>
      ((97 <=? N_of_ascii c) && (N_of_ascii c <=? 122))%N || has_lower rest
  end.

(** What the user types during one pass of the menu loop. [choice] is the
    first integer that [readInt] manages to extract, after
    [choice_rejected] failed attempts; the tokens are what [std::cin >> code]
    extracts in [readCode]; [number] is the first [double] that
    [readDouble] manages to extract, after [number_rejected] failed
    attempts. Only options 1 and 3 read tokens and a number. *)
Record entry : Type := mkEntry {
  choice_rejected : nat;
  choice : Z;
  fromToken : string;
  toToken : string;
  number_rejected : nat;
  number : float
}.

Record ConverterApp : Type := mkConverterApp {
  rateProvider : StaticRateProvider;
  currencies : gmap string Currency.t
}.

(** What running a handler comes to: the output written, whether it
    returned or threw, and the application as the handler leaves it. *)
Record effect : Type := mkEffect {
  printed : list output;
  result : outcome unit;
  after : ConverterApp
}.

Module ConverterApp.

#[local] Open Scope list_scope.

(** The prompt is written before each attempt; a failed attempt is followed
    by the complaint. *)
Definition readNumber {A : Type} (prompt : string) (rejected : nat) (value : A)
    : list output * A :=
  (concat (replicate rejected
             [Text prompt; Text (line "Invalid number. Try again.")])
     ++ [Text prompt],
   value).

Definition readInt (prompt : string) (rejected : nat) (value : Z)
    : list output * Z :=
  readNumber prompt rejected value.

Definition readDouble (prompt : string) (rejected : nat) (value : float)
    : list output * float :=
  readNumber prompt rejected value.

Definition readCode (prompt : string) (token : string)
    : list output * string :=
  ([Text prompt], uppercase token).

Definition registerCurrency (currency : Currency.t) (this : ConverterApp)
    : ConverterApp :=
  {| rateProvider := rateProvider this;
     currencies :=
       <[Currency.getCode currency := currency]> (currencies this) |}.

Definition seedCurrencies (this : ConverterApp) : ConverterApp :=
  registerCurrency (Currency.mk "CAD" "Canadian Dollar" "$")
    (registerCurrency (Currency.mk "AUD" "Australian Dollar" "$")
       (registerCurrency (Currency.mk "JPY" "Japanese Yen" "¥")
          (registerCurrency (Currency.mk "GBP" "British Pound" "£")
             (registerCurrency (Currency.mk "INR" "Indian Rupee" "₹")
                (registerCurrency (Currency.mk "EUR" "Euro" "€")
                   (registerCurrency (Currency.mk "USD" "US Dollar" "$")
                      this)))))).

(** The constructor. *)
Definition new : ConverterApp :=
  seedCurrencies
    {| rateProvider := StaticRateProvider.new "USD"; currencies := ∅ |}.

Definition printMainMenu : list output :=
  [Text (line "==============================");
   Text (line "   Smart Currency Converter");
   Text (line "==============================");
   Text (line "1. Convert amount");
   Text (line "2. List supported currencies");
   Text (line "3. Override custom exchange rate");
   Text (line "4. About this tool");
   Text (line "0. Exit")].

Definition handleConvert (this : ConverterApp) (e : entry) : effect :=
  let '(asked_from, from) :=
    readCode "From currency code (e.g. USD): " (fromToken e) in
  let '(asked_to, to) :=
    readCode "To currency code (e.g. INR): " (toToken e) in
  let '(asked_amount, amount) :=
    readDouble "Amount: " (number_rejected e) (number e) in
  let asked :=
    [Text (line "--- Convert Amount ---")]
      ++ asked_from ++ asked_to ++ asked_amount in
  match CurrencyConverter.convert (rateProvider this) from to amount with
  | inl ex => {| printed := asked; result := throw ex; after := this |}
  | inr converted =>
      let shownFrom :=
        match currencies this !! from with
        | Some c => Currency.getCode c
        | None => from
        end in
      let shownTo :=
        match currencies this !! to with
        | Some c => Currency.getCode c
        | None => to
        end in
      {| printed :=
           asked ++
           [Text nl; Fixed2 amount; Text " "; Text shownFrom; Text " = ";
            Fixed2 converted; Text " "; Text shownTo; Text nl];
         result := returns tt;
         after := this |}
  end.

(** The catalogue in the order [std::map] iterates it. *)
Definition listed (this : ConverterApp) : list Currency.t :=
  (merge_sort (λ p q, code_le p.1 q.1) (map_to_list (currencies this))).*2.

Definition handleListCurrencies (this : ConverterApp) : effect :=
  {| printed :=
       [Text (line "--- Supported Currencies ---");
        Text (setw_left 8 "Code"); Text (setw_left 20 "Name");
        Text "Symbol"; Text nl;
        Text (line "-------------------------------------")]
       ++ concat
            (map (λ c, [Text (setw_left 8 (Currency.getCode c));
                        Text (setw_left 20 (Currency.getName c));
                        Text (Currency.getSymbol c); Text nl])
                 (listed this));
     result := returns tt;
     after := this |}.

Definition handleCustomRate (this : ConverterApp) (e : entry) : effect :=
  let '(asked_from, from) := readCode "From currency code: " (fromToken e) in
  let '(asked_to, to) := readCode "To currency code: " (toToken e) in
  let '(asked_rate, rate) :=
    readDouble ("Custom rate (1 " +:+ from +:+ " = ? " +:+ to +:+ "): ")
               (number_rejected e) (number e) in
  let asked :=
    [Text (line "--- Custom Exchange Rate ---")]
      ++ asked_from ++ asked_to ++ asked_rate in
  match StaticRateProvider.setCustomRate from to rate (rateProvider this) with
  | (inl ex, provider) =>
      {| printed := asked;
         result := throw ex;
         after := {| rateProvider := provider;
                     currencies := currencies this |} |}
  | (inr _, provider) =>
      {| printed :=
           asked ++
           [Text (line "Custom rate updated. Future conversions will use this rate.")];
         result := returns tt;
         after := {| rateProvider := provider;
                     currencies := currencies this |} |}
  end.

Definition printAbout : list output :=
  [Text (line "--- About ---");
   Text (line "This demo shows an object-oriented design in C++.");
   Text (line "Key concepts used:");
   Text (line " - Encapsulation via Currency, StaticRateProvider, CurrencyConverter classes");
   Text (line " - Inheritance and polymorphism via ExchangeRateProvider interface");
   Text (line " - Separation of concerns (domain, application, UI layers)")].

(** The [switch] inside the [try] block of [run]. *)
Definition dispatch (this : ConverterApp) (e : entry) : effect :=
  match choice e with
  | 1%Z => handleConvert this e
  | 2%Z => handleListCurrencies this
  | 3%Z => handleCustomRate this e
  | 4%Z => {| printed := printAbout; result := returns tt; after := this |}
  | 0%Z => {| printed := []; result := returns tt; after := this |}
  | _ =>
      {| printed := [Text (line "Unknown choice. Try again.")];
         result := returns tt;
         after := this |}
  end.

(** One pass through the body of the [while] loop of [run]: the output, the
    application afterwards, and the value of [running]. *)
Definition pass (this : ConverterApp) (e : entry)
    : list output * ConverterApp * bool :=
  let '(asked_choice, chosen) :=
    readInt "Choose an option: " (choice_rejected e) (choice e) in
  let done := dispatch this e in
  let caught :=
    match result done with
    | inl ex => [Text "Error: "; Text (what ex); Text nl]
    | inr _ => []
    end in
  let running := negb (chosen =? 0)%Z in
  let paused :=
    if running then [Text (nl +:+ "Press ENTER to continue..."); Text nl]
    else [] in
  (printMainMenu ++ asked_choice ++ [Text nl]
     ++ printed done ++ caught ++ paused,
   after done, running).

(** [run] fed with what the user types, pass by pass: the output of the
    passes completed, the application afterwards, and whether the loop was
    left (and the farewell written) or still waits for input. *)
Fixpoint run (this : ConverterApp) (script : list entry)
    : list output * ConverterApp * bool :=
  match script with
  | [] => ([], this, false)
  | e :: rest =>
      let '(out, this', running) := pass this e in
      if running then
        let '(out', this'', exited) := run this' rest in
        (out ++ out', this'', exited)
      else (out ++ [Text (line "Goodbye!")], this', true)
  end.

(** [main]. *)
Definition main (script : list entry) : list output * ConverterApp * bool :=
  run new script.

End ConverterApp.

(** Every catalogue entry is stored under its own code. *)
Definition keyed_by_code (catalogue : gmap string Currency.t) : Prop :=
  forall key c, catalogue !! key = Some c -> Currency.getCode c = key.

(** * Properties *)

Import StaticRateProvider.

(** ** Facts about binary64 comparison and multiplication *)

Lemma Prim2SF_zero : Prim2SF 0 = S754_zero false.
Proof. reflexivity. Qed.

Lemma ltb_zero_not_leb (r : float) :
  (0 <? r)%float = true -> (r <=? 0)%float = false.
Proof.
  rewrite ltb_spec, leb_spec, Prim2SF_zero. unfold SFltb, SFleb.
  destruct (Prim2SF r) as [s | s | | s m e]; simpl;
    try destruct s; done.
Qed.

Lemma mul_zero_l (r : float) :
  (0 * r)%float = 0%float <-> is_finite_nonneg r = true.
Proof.
  unfold is_finite_nonneg. rewrite classify_spec.
  unfold SF64classify, SFclassify.
  split.
  - intros Hmul. apply (f_equal Prim2SF) in Hmul.
    rewrite mul_spec, Prim2SF_zero in Hmul.
    destruct (Prim2SF r) as [s | s | | s m e]; simpl in Hmul;
      try destruct s; try discriminate; try reflexivity.
    destruct (Z.pos (digits2_pos m) =? prec)%Z; reflexivity.
  - intros Hcl. apply Prim2SF_inj.
    rewrite mul_spec, Prim2SF_zero.
    destruct (Prim2SF r) as [s | s | | s m e]; simpl;
      try destruct s; try discriminate; try reflexivity.
    destruct (Z.pos (digits2_pos m) =? prec)%Z; discriminate.
Qed.

Lemma Prim2SF_infinity : Prim2SF infinity = S754_infinity false.
Proof. reflexivity. Qed.

Lemma SFeqb_finite_refl (s : bool) (m : positive) (e : Z) :
  SFeqb (S754_finite s m e) (S754_finite s m e) = true.
Proof.
  unfold SFeqb, SFcompare.
  rewrite Z.compare_refl, Pos.compare_cont_refl. by destruct s.
Qed.

(** With C++ [==], under which -0.0 equals 0.0. *)
Lemma mul_zero_l_eqb (r : float) :
  (0 * r =? 0)%float = true <-> is_finite r = true.
Proof.
  unfold is_finite, is_nan, is_infinity.
  rewrite !FloatAxioms.eqb_spec, abs_spec, mul_spec.
  rewrite Prim2SF_zero, Prim2SF_infinity.
  destruct (Prim2SF r) as [s | s | | s m e]; simpl;
    try destruct s; simpl; try done.
  all: rewrite SFeqb_finite_refl; done.
Qed.

(** ** Keys of the override table *)

(** Two pairs of codes get the same key only if they are the same pair, as
    long as the two source codes contain no '-'. *)
Lemma makeKey_inj (A B C D : string) :
  dash_free A = true -> dash_free C = true ->
  makeKey A B = makeKey C D -> A = C /\ B = D.
Proof.
  unfold makeKey. revert C.
  induction A as [| a A IH]; intros [| c C] HA HC Hkey; simpl in *.
  - injection Hkey as Hkey. done.
  - injection Hkey as Hc _. subst c. by rewrite Ascii.eqb_refl in HC.
  - injection Hkey as Ha _. subst a. by rewrite Ascii.eqb_refl in HA.
  - injection Hkey as -> Hkey.
    apply andb_prop in HA as [_ HA]. apply andb_prop in HC as [_ HC].
    destruct (IH C HA HC Hkey) as [-> ->]. done.
Qed.

(** In particular a pair of distinct dash-free codes and its reverse have
    different keys. *)
Lemma makeKey_reverse_distinct (A B : string) :
  dash_free A = true -> dash_free B = true ->
  A <> B -> makeKey B A <> makeKey A B.
Proof.
  intros HA HB Hne Hkey.
  destruct (makeKey_inj B A A B HB HA Hkey) as [HBA _]. by apply Hne.
Qed.

(** What [setCustomRate] does to the provider when it accepts the rate. *)
Lemma setCustomRate_accepts (this : StaticRateProvider) (A B : string)
    (r : float) :
  (r <=? 0)%float = false ->
  setCustomRate A B r this =
    (returns tt,
     {| baseCurrencyCode := baseCurrencyCode this;
        baseRates := baseRates this;
        customRates := <[makeKey A B := r]> (customRates this) |}).
Proof. intros Hr. unfold setCustomRate. by rewrite Hr. Qed.

Lemma getRate_distinct (this : StaticRateProvider) (from to : string) :
  from <> to ->
  getRate this from to =
    match customRates this !! makeKey from to with
    | Some custom => returns custom
    | None =>
        match baseRates this !! from, baseRates this !! to with
        | Some rateFrom, Some rateTo => returns (rateTo / rateFrom)%float
        | _, _ => throw UnsupportedCurrencyError
        end
    end.
Proof. intros Hne. unfold getRate. by destruct (decide (from = to)). Qed.

(** C1: in every provider state, whether or not [X] is in the rate table
    and whatever overrides are stored (also one under the key of the pair
    (X, X)), [getRate X X] returns exactly 1.0 and does not throw. *)
Theorem getRate_identity (this : StaticRateProvider) (X : string) :
  getRate this X X = returns 1.0%float.
Proof.
  unfold getRate.
  destruct (decide (X = X)) as [_ | Hne]; [reflexivity | contradiction].
Qed.

(** An override stored under the key of ("USD", "USD") changes nothing. *)
Example getRate_same_code_overridden :
  customRates (snd (setCustomRate "USD" "USD" 5 default)) !! makeKey "USD" "USD"
    = Some 5%float /\
  getRate (snd (setCustomRate "USD" "USD" 5 default)) "USD" "USD"
    = returns 1.0%float /\
  getRate default "ZZZ" "ZZZ" = returns 1.0%float.
Proof. repeat split; vm_compute; reflexivity. Qed.

(** C3: for [from <> to], when the override table has no entry for the pair
    and both codes are in the rate table, [getRate from to] returns
    [baseRates[to] / baseRates[from]]. *)
Theorem getRate_triangulates (this : StaticRateProvider) (from to : string)
    (rateFrom rateTo : float) :
  from <> to ->
  customRates this !! makeKey from to = None ->
  baseRates this !! from = Some rateFrom ->
  baseRates this !! to = Some rateTo ->
  getRate this from to = returns (rateTo / rateFrom)%float.
Proof.
  intros Hne Hcustom Hfrom Hto.
  rewrite getRate_distinct by done. by rewrite Hcustom, Hfrom, Hto.
Qed.

Lemma getRate_triangulates_witness :
  getRate default "EUR" "INR" = returns (83.10 / 0.92)%float.
Proof.
  apply (getRate_triangulates default "EUR" "INR" 0.92 83.10);
    [discriminate | vm_compute; reflexivity ..].
Defined.

(** C2 (amended): for codes [A <> B] and a rate [r > 0], [setCustomRate A B r]
    succeeds and afterwards [getRate A B] returns exactly [r], whatever the
    rate table holds; [getRate B A] returns what it returned before the call
    provided the reverse pair has a key of its own, that is
    [makeKey B A <> makeKey A B] (by [makeKey_reverse_distinct], always so
    when neither code contains the character '-'). *)
Theorem setCustomRate_override (this : StaticRateProvider) (A B : string)
    (r : float) :
  A <> B ->
  (0 <? r)%float = true ->
  fst (setCustomRate A B r this) = returns tt /\
  getRate (snd (setCustomRate A B r this)) A B = returns r /\
  (makeKey B A <> makeKey A B ->
   getRate (snd (setCustomRate A B r this)) B A = getRate this B A).
Proof.
  intros Hne Hpos.
  rewrite (setCustomRate_accepts this A B r (ltb_zero_not_leb r Hpos)).
  cbn [fst snd]. split; [reflexivity |]. split.
  - rewrite getRate_distinct by done. cbn [customRates].
    by rewrite lookup_insert_eq.
  - intros Hkeys.
    rewrite !(getRate_distinct _ B A) by done. cbn [customRates baseRates].
    by rewrite lookup_insert_ne by done.
Qed.

Lemma setCustomRate_override_witness :
  fst (setCustomRate "USD" "EUR" 0.95 default) = returns tt /\
  getRate (snd (setCustomRate "USD" "EUR" 0.95 default)) "USD" "EUR"
    = returns 0.95%float /\
  (makeKey "EUR" "USD" <> makeKey "USD" "EUR" ->
   getRate (snd (setCustomRate "USD" "EUR" 0.95 default)) "EUR" "USD"
     = getRate default "EUR" "USD").
Proof.
  apply (setCustomRate_override default "USD" "EUR" 0.95);
    [discriminate | vm_compute; reflexivity].
Defined.

(** C2 as stated fails: the pairs ("X", "X->X") and ("X->X", "X") share the
    key "X->X->X", so an override set for the first, with none ever set for
    the second, changes what [getRate "X->X" "X"] does. *)
Lemma setCustomRate_override_reverse_aliased :
  "X" <> "X->X" /\
  (0 <? 2)%float = true /\
  fst (setCustomRate "X" "X->X" 2 default) = returns tt /\
  customRates default = ∅ /\
  getRate default "X->X" "X" = throw UnsupportedCurrencyError /\
  getRate (snd (setCustomRate "X" "X->X" 2 default)) "X->X" "X"
    = returns 2%float /\
  getRate (snd (setCustomRate "X" "X->X" 2 default)) "X->X" "X"
    <> getRate default "X->X" "X".
Proof.
  repeat split; try (vm_compute; reflexivity); discriminate.
Qed.

(** C5: [setCustomRate A B r] throws the invalid-rate error exactly when
    [r <= 0] and returns normally otherwise; when it throws, the provider
    (so the whole override table, and the entry of (A, B) in it) is left as
    it was; when [r > 0] it returns and the override table is the old one
    with the key of (A, B) bound to [r]. *)
Theorem setCustomRate_validates (this : StaticRateProvider) (A B : string)
    (r : float) :
  (fst (setCustomRate A B r this) = throw InvalidRateError
     <-> (r <=? 0)%float = true) /\
  (fst (setCustomRate A B r this) = returns tt
     <-> (r <=? 0)%float = false) /\
  ((r <=? 0)%float = true ->
     snd (setCustomRate A B r this) = this /\
     customRates (snd (setCustomRate A B r this)) !! makeKey A B
       = customRates this !! makeKey A B) /\
  ((0 <? r)%float = true ->
     fst (setCustomRate A B r this) = returns tt /\
     customRates (snd (setCustomRate A B r this))
       = <[makeKey A B := r]> (customRates this) /\
     baseRates (snd (setCustomRate A B r this)) = baseRates this /\
     baseCurrencyCode (snd (setCustomRate A B r this))
       = baseCurrencyCode this).
Proof.
  split; [| split; [| split]].
  - unfold setCustomRate. destruct (r <=? 0)%float; cbn [fst]; split; done.
  - unfold setCustomRate. destruct (r <=? 0)%float; cbn [fst]; split; done.
  - intros Hr. unfold setCustomRate. rewrite Hr. done.
  - intros Hpos.
    rewrite (setCustomRate_accepts this A B r (ltb_zero_not_leb r Hpos)).
    done.
Qed.

Lemma setCustomRate_validates_witness :
  fst (setCustomRate "USD" "EUR" (-5) (snd (setCustomRate "USD" "EUR" 0.95 default)))
    = throw InvalidRateError /\
  customRates
    (snd (setCustomRate "USD" "EUR" (-5)
            (snd (setCustomRate "USD" "EUR" 0.95 default))))
    !! makeKey "USD" "EUR" = Some 0.95%float /\
  customRates (snd (setCustomRate "USD" "EUR" 0.95 default))
    = <[makeKey "USD" "EUR" := 0.95%float]> (customRates default).
Proof.
  pose proof (setCustomRate_validates
                (snd (setCustomRate "USD" "EUR" 0.95 default))
                "USD" "EUR" (-5)) as (Hthrow & _ & Hkept & _).
  pose proof (setCustomRate_validates default "USD" "EUR" 0.95)
    as (_ & _ & _ & Hset).
  split; [apply Hthrow; vm_compute; reflexivity |].
  split.
  - destruct Hkept as [_ ->]; vm_compute; reflexivity.
  - apply Hset. vm_compute; reflexivity.
Defined.

(** C6: for codes [A <> B] that are both absent from the rate table and a
    rate [r > 0], [setCustomRate A B r] returns normally and afterwards
    [getRate A B] returns [r] instead of throwing; whether [setCustomRate]
    returns or throws does not depend on the codes or on the provider. *)
Theorem override_unknown_codes (this : StaticRateProvider) (A B : string)
    (r : float) :
  A <> B ->
  baseRates this !! A = None ->
  baseRates this !! B = None ->
  (0 <? r)%float = true ->
  fst (setCustomRate A B r this) = returns tt /\
  getRate (snd (setCustomRate A B r this)) A B = returns r /\
  (forall (other : StaticRateProvider) (C D : string),
     fst (setCustomRate C D r other) = fst (setCustomRate A B r this)).
Proof.
  intros Hne _ _ Hpos.
  pose proof (ltb_zero_not_leb r Hpos) as Hr.
  split; [| split].
  - by rewrite setCustomRate_accepts.
  - rewrite setCustomRate_accepts by done. cbn [snd].
    rewrite getRate_distinct by done. cbn [customRates].
    by rewrite lookup_insert_eq.
  - intros other C D. by rewrite !setCustomRate_accepts.
Qed.

Lemma override_unknown_codes_witness :
  getRate default "XAU" "XAG" = throw UnsupportedCurrencyError /\
  fst (setCustomRate "XAU" "XAG" 80 default) = returns tt /\
  getRate (snd (setCustomRate "XAU" "XAG" 80 default)) "XAU" "XAG"
    = returns 80%float.
Proof.
  split; [vm_compute; reflexivity |].
  pose proof (override_unknown_codes default "XAU" "XAG" 80) as Hset.
  destruct Hset as (Hok & Hrate & _);
    [discriminate | vm_compute; reflexivity ..|].
  split; [exact Hok | exact Hrate].
Defined.

(** C9: the pairs ("A->B", "C") and ("A", "B->C") are different but have the
    same key, so after [setCustomRate "A->B" "C" r] has accepted [r] the
    call [getRate "A" "B->C"] returns [r]. *)
Theorem override_keys_alias (this : StaticRateProvider) (r : float) :
  (r <=? 0)%float = false ->
  ("A->B", "C") <> ("A", "B->C") /\
  makeKey "A->B" "C" = makeKey "A" "B->C" /\
  fst (setCustomRate "A->B" "C" r this) = returns tt /\
  getRate (snd (setCustomRate "A->B" "C" r this)) "A" "B->C" = returns r.
Proof.
  intros Hr. rewrite setCustomRate_accepts by done. cbn [fst snd].
  split; [discriminate |]. split; [reflexivity |]. split; [reflexivity |].
  rewrite getRate_distinct by discriminate. cbn [customRates].
  change (makeKey "A" "B->C") with (makeKey "A->B" "C").
  by rewrite lookup_insert_eq.
Qed.

Lemma override_keys_alias_witness :
  getRate default "A" "B->C" = throw UnsupportedCurrencyError /\
  getRate (snd (setCustomRate "A->B" "C" 7 default)) "A" "B->C"
    = returns 7%float.
Proof.
  split; [vm_compute; reflexivity |].
  apply (override_keys_alias default 7). vm_compute; reflexivity.
Defined.

(** C4 (amended): for [from <> to], when the override table has no entry
    for the pair and at least one of the two codes is absent from the rate
    table, [getRate from to] throws a [std::runtime_error] whose message is
    the fixed text "Unsupported currency code"; the exception is the same
    whichever code is unknown and carries neither code. *)
Theorem getRate_unsupported (this : StaticRateProvider) (from to : string) :
  from <> to ->
  customRates this !! makeKey from to = None ->
  baseRates this !! from = None \/ baseRates this !! to = None ->
  getRate this from to = throw (runtime_error "Unsupported currency code").
Proof.
  intros Hne Hcustom Habsent.
  rewrite getRate_distinct by done. rewrite Hcustom.
  destruct Habsent as [-> | ->]; [done |].
  by destruct (baseRates this !! from).
Qed.

Lemma getRate_unsupported_witness :
  getRate default "ZZZ" "USD"
    = throw (runtime_error "Unsupported currency code").
Proof.
  apply (getRate_unsupported default "ZZZ" "USD");
    [discriminate | vm_compute; reflexivity | left; vm_compute; reflexivity].
Defined.

(** C4 as stated fails: with "ZZZ" unknown in one call and "YYY" in another,
    [getRate] throws one and the same exception, and its message contains
    neither code. *)
Lemma getRate_unsupported_names_no_code :
  unknown_codes default "ZZZ" "USD" = ["ZZZ"] /\
  unknown_codes default "USD" "YYY" = ["YYY"] /\
  getRate default "ZZZ" "USD" = throw UnsupportedCurrencyError /\
  getRate default "USD" "YYY" = throw UnsupportedCurrencyError /\
  occurs_in "ZZZ" (what UnsupportedCurrencyError) = false /\
  occurs_in "YYY" (what UnsupportedCurrencyError) = false.
Proof. repeat split; vm_compute; reflexivity. Qed.

(** ** The converter *)

Import CurrencyConverter.

Section Converter.
Context {P : Type} `{ExchangeRateProvider.interface P}.
Variable rateProvider : P.

(** C7 (amended): [convert A B amount] throws the negative-amount error
    if [amount < 0]; otherwise it calls [getRate A B] once, lets an
    exception of [getRate] through unchanged and returns [amount * rate].
    So [convert A B 0.0] returns [0.0 * rate] whenever [getRate A B]
    returns [rate]: that is +0.0 exactly when [rate] is +0.0 or positive
    and finite, and it compares equal to 0.0 exactly when [rate] is
    finite. *)
Theorem convert_spec (A B : string) (amount : float) :
  ((amount <? 0)%float = true ->
     convert rateProvider A B amount = throw NegativeAmountError) /\
  ((amount <? 0)%float = false ->
     getRate_calls rateProvider (convert_body A B amount) = [(A, B)] /\
     convert rateProvider A B amount =
       match ExchangeRateProvider.getRate rateProvider A B with
       | inl e => throw e
       | inr rate => returns (amount * rate)%float
       end) /\
  (forall rate : float,
     ExchangeRateProvider.getRate rateProvider A B = returns rate ->
     convert rateProvider A B 0 = returns (0 * rate)%float /\
     (convert rateProvider A B 0 = returns 0%float
        <-> is_finite_nonneg rate = true) /\
     ((0 * rate =? 0)%float = true <-> is_finite rate = true)).
Proof.
  unfold convert, convert_body. split; [| split].
  - intros ->. reflexivity.
  - intros ->. cbn [getRate_calls perform].
    destruct (ExchangeRateProvider.getRate rateProvider A B); done.
  - intros rate Hrate.
    change (0 <? 0)%float with false. cbn [perform]. rewrite Hrate.
    split; [reflexivity |]. split; [| apply mul_zero_l_eqb].
    rewrite <- mul_zero_l. unfold returns.
    split; [by intros [= ->] | by intros ->].
Qed.

(** C10: for [amount < 0], [convert A B amount] throws the
    negative-amount error without issuing any [getRate] call, whatever
    the provider and the codes are, so also when [getRate A B] would
    throw. *)
Theorem convert_negative_first (A B : string) (amount : float) :
  (amount <? 0)%float = true ->
  convert rateProvider A B amount = throw NegativeAmountError /\
  convert_body A B amount = Throw NegativeAmountError /\
  getRate_calls rateProvider (convert_body A B amount) = [].
Proof.
  intros Hneg. unfold convert, convert_body. rewrite Hneg. done.
Qed.
End Converter.

Lemma convert_spec_witness :
  convert default "USD" "EUR" (-1) = throw NegativeAmountError /\
  convert default "USD" "EUR" 100 = returns 92%float /\
  convert default "ZZZ" "EUR" 100 = throw UnsupportedCurrencyError /\
  convert default "USD" "EUR" 0 = returns 0%float.
Proof.
  pose proof (convert_spec default "USD" "EUR" (-1)) as (Hneg & _ & _).
  pose proof (convert_spec default "USD" "EUR" 100) as (_ & Hpos & _).
  pose proof (convert_spec default "ZZZ" "EUR" 100) as (_ & Hbad & _).
  pose proof (convert_spec default "USD" "EUR" 0) as (_ & _ & Hzero).
  split; [apply Hneg; vm_compute; reflexivity |].
  split; [destruct Hpos as [_ ->]; vm_compute; reflexivity |].
  split; [destruct Hbad as [_ ->]; vm_compute; reflexivity |].
  destruct (Hzero 0.92%float) as (_ & Hiff & _); [vm_compute; reflexivity |].
  apply Hiff. vm_compute; reflexivity.
Defined.

(** C7 as stated fails. After [registerCurrency "AAA" 1e-300] and
    [registerCurrency "BBB" 1e300], two positive finite rates, the call
    [getRate "AAA" "BBB"] returns their quotient, which overflows to
    infinity, and [convert "AAA" "BBB" 0.0] returns NaN. The same happens
    after [setCustomRate "USD" "EUR" infinity], which is accepted. *)
Lemma convert_zero_amount_nan :
  getRate (registerCurrency "BBB" 1e300 (registerCurrency "AAA" 1e-300 default))
          "AAA" "BBB" = returns infinity /\
  convert (registerCurrency "BBB" 1e300 (registerCurrency "AAA" 1e-300 default))
          "AAA" "BBB" 0 = returns nan /\
  convert (registerCurrency "BBB" 1e300 (registerCurrency "AAA" 1e-300 default))
          "AAA" "BBB" 0 <> returns 0%float /\
  (nan =? 0)%float = false /\
  getRate (snd (setCustomRate "USD" "EUR" infinity default)) "USD" "EUR"
    = returns infinity /\
  convert (snd (setCustomRate "USD" "EUR" infinity default)) "USD" "EUR" 0
    <> returns 0%float.
Proof.
  assert (Hnan : @returns float nan <> returns 0%float).
  { intros Hnan.
    apply (f_equal (λ o : outcome float,
                      match o with inl _ => PZero | inr x => classify x end))
      in Hnan.
    vm_compute in Hnan. discriminate. }
  repeat split; try (vm_compute; reflexivity);
    intros Heq; apply Hnan; rewrite <- Heq; vm_compute; reflexivity.
Qed.

Lemma convert_negative_first_witness :
  getRate default "ZZZ" "USD" = throw UnsupportedCurrencyError /\
  convert default "ZZZ" "USD" (-1) = throw NegativeAmountError /\
  getRate_calls default (convert_body "ZZZ" "USD" (-1)) = [].
Proof.
  split; [vm_compute; reflexivity |].
  destruct (convert_negative_first default "ZZZ" "USD" (-1))
    as (Hthrow & _ & Hcalls); [vm_compute; reflexivity |].
  split; [exact Hthrow | exact Hcalls].
Defined.

(** ** The rate of the base currency *)

Lemma new_base_rate (baseCode : string) :
  baseCode ∉ seedCodes ->
  baseRates (new baseCode) !! baseCode = Some 1.0%float.
Proof.
  unfold seedCodes. rewrite !not_elem_of_cons.
  intros (HEUR & HINR & HGBP & HJPY & HAUD & HCAD & _).
  cbn [new baseRates].
  rewrite !lookup_insert_ne by done. apply lookup_insert_eq.
Qed.

Lemma serve_baseCurrencyCode (this : StaticRateProvider) (c : request) :
  baseCurrencyCode (serve this c) = baseCurrencyCode this.
Proof.
  destruct c as [code rateVsBase | from to rate | from to |]; try done.
  cbn [serve]. unfold setCustomRate. by destruct (rate <=? 0)%float.
Qed.

Lemma serve_keeps_base_rate (this : StaticRateProvider) (c : request)
    (baseCode : string) :
  keeps_base baseCode c ->
  baseRates this !! baseCode = Some 1.0%float ->
  baseRates (serve this c) !! baseCode = Some 1.0%float.
Proof.
  intros Hkeeps Hbase.
  destruct c as [code rateVsBase | from to rate | from to |]; try done.
  - cbn [serve registerCurrency baseRates]. cbn [keeps_base] in Hkeeps.
    destruct (decide (code = baseCode)) as [-> | Hne].
    + rewrite (Hkeeps eq_refl). apply lookup_insert_eq.
    + by rewrite lookup_insert_ne.
  - cbn [serve]. unfold setCustomRate. by destruct (rate <=? 0)%float.
Qed.

(** C8 (amended): for a provider constructed with a base code that is not
    one of the six seed codes (so for the default "USD"), in every state
    reachable by [registerCurrency], [setCustomRate], [getRate] and
    [getSupportedCodes] calls among which no [registerCurrency] call gives
    the base code a value other than 1.0, the rate table maps the base code
    to exactly 1.0. *)
Theorem base_rate_pinned (baseCode : string) (this : StaticRateProvider) :
  baseCode ∉ seedCodes ->
  reachable_by (keeps_base baseCode) baseCode this ->
  baseCurrencyCode this = baseCode /\
  baseRates this !! baseCode = Some 1.0%float.
Proof.
  intros Hseed Hreach.
  induction Hreach as [| this c _ [IHcode IHrate] Hkeeps].
  - split; [reflexivity | by apply new_base_rate].
  - split; [by rewrite serve_baseCurrencyCode |].
    by apply serve_keeps_base_rate.
Qed.

Lemma base_rate_pinned_witness :
  baseRates
    (serve (serve (serve default (RegisterCurrency "CHF" 0.88))
                  (SetCustomRate "USD" "EUR" 0.95))
           (RegisterCurrency "USD" 1.0))
    !! "USD" = Some 1.0%float.
Proof.
  apply (base_rate_pinned "USD").
  - unfold seedCodes. rewrite !not_elem_of_cons.
    repeat split; try discriminate. apply not_elem_of_nil.
  - repeat apply reachable_serve; [apply reachable_new | ..]; cbn; try done.
Defined.

(** C8 as stated fails: [registerCurrency] overwrites the entry of any code,
    the base code too. *)
Lemma base_rate_overwritten :
  reachable_by any_request "USD" (serve default (RegisterCurrency "USD" 2)) /\
  baseCurrencyCode (serve default (RegisterCurrency "USD" 2)) = "USD" /\
  baseRates (serve default (RegisterCurrency "USD" 2)) !! "USD"
    = Some 2%float /\
  baseRates (serve default (RegisterCurrency "USD" 2)) !! "USD"
    <> Some 1.0%float.
Proof.
  split; [apply reachable_serve; [apply reachable_new | exact I] |].
  split; [reflexivity |]. split; [vm_compute; reflexivity |].
  intros Heq.
  apply (f_equal (λ o : option float,
                    match o with Some x => (x <? 1.5)%float | None => true end))
    in Heq.
  vm_compute in Heq. discriminate.
Qed.

(** The constructor assigns the seed rates after the base rate: a seed code
    taken as base code ends up with its seed rate. *)
Example new_seed_code_as_base :
  baseRates (new "EUR") !! baseCurrencyCode (new "EUR") = Some 0.92%float.
Proof. vm_compute. reflexivity. Qed.

(** ** More on the rate provider *)

Lemma getRate_returns_iff (this : StaticRateProvider) (from to : string) :
  (exists rate, getRate this from to = returns rate) <->
  from = to \/
  is_Some (customRates this !! makeKey from to) \/
  (is_Some (baseRates this !! from) /\ is_Some (baseRates this !! to)).
Proof.
  unfold getRate, returns, throw.
  destruct (decide (from = to)) as [Heq | Hne];
    [split; [by left | by eexists] |].
  destruct (customRates this !! makeKey from to) as [custom |];
    [split; [by right; left | by eexists] |].
  destruct (baseRates this !! from) as [rateFrom |],
           (baseRates this !! to) as [rateTo |];
    (split; [intros [rate Hrate] | intros [Heq | [Hcustom | [Hfrom Hto]]]]);
    try done; try (by eexists);
    try (by destruct Hcustom); try (by destruct Hfrom); try (by destruct Hto).
  right; right; split; by eexists.
Qed.

Lemma getRate_throw_inv (this : StaticRateProvider) (from to : string)
    (e : exception) :
  getRate this from to = throw e -> e = UnsupportedCurrencyError.
Proof.
  unfold getRate, returns, throw.
  destruct (decide (from = to)); [done |].
  destruct (customRates this !! makeKey from to); [done |].
  destruct (baseRates this !! from), (baseRates this !! to); congruence.
Qed.

(** X1: [getRate] throws nothing but the unsupported-currency error, and it
    returns a rate exactly when the two codes are equal, or the override
    table has the key of the pair, or both codes are in the rate table. *)
Theorem getRate_outcome (this : StaticRateProvider) (from to : string) :
  (forall e, getRate this from to = throw e -> e = UnsupportedCurrencyError) /\
  ((exists rate, getRate this from to = returns rate) <->
   from = to \/
   is_Some (customRates this !! makeKey from to) \/
   (is_Some (baseRates this !! from) /\ is_Some (baseRates this !! to))).
Proof.
  split; [apply getRate_throw_inv | apply getRate_returns_iff].
Qed.

(** *** The order of codes *)

Lemma ascii_compare_trans (a b c : ascii) :
  Ascii.compare a b = Lt -> Ascii.compare b c = Lt -> Ascii.compare a c = Lt.
Proof. unfold Ascii.compare. rewrite !N.compare_lt_iff. lia. Qed.

Lemma string_compare_trans (s1 s2 s3 : string) :
  String.compare s1 s2 = Lt -> String.compare s2 s3 = Lt ->
  String.compare s1 s3 = Lt.
Proof.
  revert s2 s3.
  induction s1 as [| a s1 IH]; intros [| b s2] [| c s3]; cbn; try done.
  destruct (Ascii.compare a b) eqn:Hab; try done;
    destruct (Ascii.compare b c) eqn:Hbc; try done.
  - apply Ascii.compare_eq_iff in Hab as ->.
    apply Ascii.compare_eq_iff in Hbc as ->.
    unfold Ascii.compare at 1. rewrite N.compare_refl. apply IH.
  - apply Ascii.compare_eq_iff in Hab as ->. by rewrite Hbc.
  - apply Ascii.compare_eq_iff in Hbc as <-. by rewrite Hab.
  - by rewrite (ascii_compare_trans a b c).
Qed.

#[local] Instance code_le_total : Total code_le.
Proof.
  intros a b. unfold code_le.
  destruct (String.leb_total a b) as [-> | ->]; [left | right]; exact I.
Qed.

#[local] Instance code_le_trans : Transitive code_le.
Proof.
  intros a b c. unfold code_le, String.leb.
  destruct (String.compare a b) eqn:Hab; try done;
    destruct (String.compare b c) eqn:Hbc; try done; intros _ _.
  - apply String.compare_eq_iff in Hab as ->. by rewrite Hbc.
  - apply String.compare_eq_iff in Hab as ->. by rewrite Hbc.
  - apply String.compare_eq_iff in Hbc as <-. by rewrite Hab.
  - by rewrite (string_compare_trans a b c).
Qed.

Lemma code_le_ne_lt (a b : string) :
  code_le a b -> a <> b -> code_lt a b.
Proof.
  unfold code_le, code_lt, String.leb, String.ltb.
  destruct (String.compare a b) eqn:Hab; try done.
  apply String.compare_eq_iff in Hab. done.
Qed.

(** A list without repetition sorted by [<=] is sorted by [<]. *)
Lemma sorted_nodup_strict (l : list string) :
  StronglySorted code_le l -> NoDup l -> StronglySorted code_lt l.
Proof.
  induction 1 as [| a l Hsorted IH Hall]; intros Hnodup; constructor.
  - apply IH. by apply NoDup_cons in Hnodup as [_ ?].
  - apply NoDup_cons in Hnodup as [Hnotin _].
    rewrite Forall_forall in Hall |- *. intros b Hb.
    apply code_le_ne_lt; [by apply Hall |]. intros ->. by apply Hnotin.
Qed.

Lemma getSupportedCodes_Permutation (this : StaticRateProvider) :
  getSupportedCodes this ≡ₚ elements (dom (baseRates this)).
Proof. unfold getSupportedCodes. apply merge_sort_Permutation. Qed.

Lemma elem_of_getSupportedCodes (this : StaticRateProvider) (code : string) :
  code ∈ getSupportedCodes this <-> is_Some (baseRates this !! code).
Proof.
  rewrite getSupportedCodes_Permutation, elem_of_elements. apply elem_of_dom.
Qed.

Lemma length_getSupportedCodes (this : StaticRateProvider) :
  length (getSupportedCodes this) = size (baseRates this).
Proof.
  rewrite getSupportedCodes_Permutation.
  change (length (elements (dom (baseRates this))))
    with (size (dom (baseRates this))).
  apply size_dom.
Qed.

(** X2: [getSupportedCodes] returns the codes of the rate table and nothing
    else, each once, in strictly ascending order of their bytes. *)
Theorem getSupportedCodes_sorted_keys (this : StaticRateProvider) :
  (forall code,
     code ∈ getSupportedCodes this <-> is_Some (baseRates this !! code)) /\
  length (getSupportedCodes this) = size (baseRates this) /\
  StronglySorted code_lt (getSupportedCodes this).
Proof.
  split; [apply elem_of_getSupportedCodes |].
  split; [apply length_getSupportedCodes |].
  apply sorted_nodup_strict.
  - apply (StronglySorted_merge_sort code_le).
  - rewrite getSupportedCodes_Permutation. apply NoDup_elements.
Qed.

(** X3: after [registerCurrency code r] the supported codes are the old ones
    and [code]; their number grows by one if [code] was unknown and stays
    the same if it was known. *)
Theorem registerCurrency_supported (this : StaticRateProvider)
    (code : string) (r : float) :
  (forall c,
     c ∈ getSupportedCodes (registerCurrency code r this)
       <-> c = code \/ c ∈ getSupportedCodes this) /\
  length (getSupportedCodes (registerCurrency code r this)) =
    match baseRates this !! code with
    | Some _ => length (getSupportedCodes this)
    | None => S (length (getSupportedCodes this))
    end.
Proof.
  split.
  - intros c. rewrite !elem_of_getSupportedCodes. cbn [registerCurrency baseRates].
    rewrite lookup_insert_is_Some.
    destruct (decide (code = c)) as [-> | Hne]; split.
    + intros _. by left.
    + intros _. by left.
    + intros [Heq | [_ Hc]]; [done | by right].
    + intros [Heq | Hc]; [done | by right].
  - rewrite !length_getSupportedCodes. cbn [registerCurrency baseRates].
    destruct (baseRates this !! code) as [old |] eqn:Hcode.
    + by apply map_size_insert_Some.
    + by apply map_size_insert_None.
Qed.

(** X4: [registerCurrency code r] does not change what [getRate from to]
    does when the two codes are equal, or the pair has an override, or
    [code] is neither of them. *)
Theorem registerCurrency_getRate_frame (this : StaticRateProvider)
    (code : string) (r : float) (from to : string) :
  from = to \/
  is_Some (customRates this !! makeKey from to) \/
  (code <> from /\ code <> to) ->
  getRate (registerCurrency code r this) from to = getRate this from to.
Proof.
  intros Hcase. unfold getRate. cbn [registerCurrency customRates baseRates].
  destruct (decide (from = to)) as [Heq | Hne]; [done |].
  destruct (customRates this !! makeKey from to) as [custom |]; [done |].
  destruct Hcase as [Heq | [[custom Hcustom] | [Hfrom Hto]]]; [done | done |].
  by rewrite !lookup_insert_ne.
Qed.

Lemma registerCurrency_getRate_frame_witness :
  getRate (registerCurrency "CHF" 0.88 default) "USD" "EUR"
    = getRate default "USD" "EUR".
Proof.
  apply (registerCurrency_getRate_frame default "CHF" 0.88 "USD" "EUR").
  right; right. split; discriminate.
Defined.

(** X5: after [registerCurrency code r], whatever rate [code] had before,
    a pair made of [code] and another registered code without overrides is
    converted with [r]: [rateOther / r] from [code], [r / rateOther] to
    [code]. *)
Theorem registerCurrency_then_getRate (this : StaticRateProvider)
    (code other : string) (r rateOther : float) :
  code <> other ->
  customRates this !! makeKey code other = None ->
  customRates this !! makeKey other code = None ->
  baseRates this !! other = Some rateOther ->
  getRate (registerCurrency code r this) code other
    = returns (rateOther / r)%float /\
  getRate (registerCurrency code r this) other code
    = returns (r / rateOther)%float.
Proof.
  intros Hne Hto Hfrom Hother.
  rewrite !getRate_distinct by done.
  cbn [registerCurrency customRates baseRates].
  rewrite Hto, Hfrom, lookup_insert_eq, lookup_insert_ne, Hother by done.
  done.
Qed.

Lemma registerCurrency_then_getRate_witness :
  getRate (registerCurrency "EUR" 0.5 default) "EUR" "USD"
    = returns (1.0 / 0.5)%float /\
  getRate (registerCurrency "EUR" 0.5 default) "USD" "EUR"
    = returns (0.5 / 1.0)%float.
Proof.
  apply (registerCurrency_then_getRate default "EUR" "USD" 0.5 1.0);
    [discriminate | vm_compute; reflexivity ..].
Defined.

(** X6: [setCustomRate A B r], accepted or not, does not change what
    [getRate C D] does for any pair whose key differs from the key of
    (A, B), nor for equal codes, and it does not change the supported
    codes. *)
Theorem setCustomRate_frame (this : StaticRateProvider) (A B : string)
    (r : float) (C D : string) :
  C = D \/ makeKey C D <> makeKey A B ->
  getRate (snd (setCustomRate A B r this)) C D = getRate this C D /\
  getSupportedCodes (snd (setCustomRate A B r this)) = getSupportedCodes this.
Proof.
  intros Hcase. unfold setCustomRate.
  destruct (r <=? 0)%float; cbn [snd]; [done |].
  split; [| reflexivity].
  unfold getRate. cbn [customRates baseRates].
  destruct (decide (C = D)) as [Heq | Hne]; [done |].
  destruct Hcase as [Heq | Hkey]; [done |].
  by rewrite lookup_insert_ne.
Qed.

Lemma setCustomRate_frame_witness :
  getRate (snd (setCustomRate "USD" "EUR" 0.95 default)) "USD" "INR"
    = getRate default "USD" "INR" /\
  getSupportedCodes (snd (setCustomRate "USD" "EUR" 0.95 default))
    = getSupportedCodes default.
Proof.
  apply (setCustomRate_frame default "USD" "EUR" 0.95 "USD" "INR").
  right. discriminate.
Defined.

(** X7: the last accepted rate wins: [setCustomRate A B r2] leaves the
    provider the same whether or not a [setCustomRate A B r1] call, accepted
    or rejected, came before it; if [r2] is rejected the earlier override
    stays. *)
Theorem setCustomRate_last_wins (this : StaticRateProvider) (A B : string)
    (r1 r2 : float) :
  (r2 <=? 0)%float = false ->
  snd (setCustomRate A B r2 (snd (setCustomRate A B r1 this)))
    = snd (setCustomRate A B r2 this).
Proof.
  intros Hr2. unfold setCustomRate. rewrite Hr2.
  destruct (r1 <=? 0)%float; cbn [snd]; [done |].
  cbn [baseCurrencyCode baseRates customRates].
  by rewrite insert_insert_eq.
Qed.

Lemma setCustomRate_last_wins_witness :
  snd (setCustomRate "USD" "EUR" 0.97
         (snd (setCustomRate "USD" "EUR" 0.95 default)))
    = snd (setCustomRate "USD" "EUR" 0.97 default).
Proof.
  apply (setCustomRate_last_wins default "USD" "EUR" 0.95 0.97).
  vm_compute; reflexivity.
Defined.

(** X8: [setCustomRate] calls on pairs with different keys can be made in
    either order, whichever of them are accepted. *)
Theorem setCustomRate_commute (this : StaticRateProvider) (A B C D : string)
    (r q : float) :
  makeKey A B <> makeKey C D ->
  snd (setCustomRate A B r (snd (setCustomRate C D q this)))
    = snd (setCustomRate C D q (snd (setCustomRate A B r this))).
Proof.
  intros Hkey. unfold setCustomRate.
  destruct (r <=? 0)%float, (q <=? 0)%float; cbn [snd]; try done.
  cbn [baseCurrencyCode baseRates customRates].
  by rewrite insert_insert_ne.
Qed.

Lemma setCustomRate_commute_witness :
  snd (setCustomRate "USD" "EUR" 0.95
         (snd (setCustomRate "EUR" "USD" 1.05 default)))
    = snd (setCustomRate "EUR" "USD" 1.05
             (snd (setCustomRate "USD" "EUR" 0.95 default))).
Proof.
  apply (setCustomRate_commute default "USD" "EUR" "EUR" "USD" 0.95 1.05).
  discriminate.
Defined.

(** X9: [registerCurrency] overwrites: registering a code twice leaves the
    provider as the second call alone does; registrations of different
    codes can be made in either order; and [registerCurrency] and
    [setCustomRate] can be made in either order. *)
Theorem registerCurrency_composes (this : StaticRateProvider)
    (code other : string) (r q : float) (A B : string) :
  registerCurrency code q (registerCurrency code r this)
    = registerCurrency code q this /\
  (code <> other ->
   registerCurrency code r (registerCurrency other q this)
     = registerCurrency other q (registerCurrency code r this)) /\
  snd (setCustomRate A B q (registerCurrency code r this))
    = registerCurrency code r (snd (setCustomRate A B q this)).
Proof.
  unfold registerCurrency, setCustomRate. split; [| split].
  - cbn [baseCurrencyCode baseRates customRates].
    by rewrite insert_insert_eq.
  - intros Hne. cbn [baseCurrencyCode baseRates customRates].
    by rewrite insert_insert_ne.
  - by destruct (q <=? 0)%float.
Qed.

(** *** What no call undoes *)

Lemma serve_customRates_grow (this : StaticRateProvider) (c : request)
    (key : string) :
  is_Some (customRates this !! key) ->
  is_Some (customRates (serve this c) !! key).
Proof.
  destruct c as [code rateVsBase | from to rate | from to |]; try done.
  cbn [serve]. unfold setCustomRate.
  destruct (rate <=? 0)%float; cbn [snd customRates]; [done |].
  intros Hkey. rewrite lookup_insert_is_Some.
  destruct (decide (makeKey from to = key)); [by left | by right].
Qed.

Lemma serve_baseRates_grow (this : StaticRateProvider) (c : request)
    (code : string) :
  is_Some (baseRates this !! code) ->
  is_Some (baseRates (serve this c) !! code).
Proof.
  destruct c as [code' rateVsBase | from to rate | from to |]; try done.
  - cbn [serve registerCurrency baseRates]. intros Hcode.
    rewrite lookup_insert_is_Some.
    destruct (decide (code' = code)); [by left | by right].
  - cbn [serve]. unfold setCustomRate. by destruct (rate <=? 0)%float.
Qed.

Lemma serve_getRate_returns (this : StaticRateProvider) (c : request)
    (from to : string) :
  (exists rate, getRate this from to = returns rate) ->
  exists rate, getRate (serve this c) from to = returns rate.
Proof.
  rewrite !getRate_returns_iff.
  intros [Heq | [Hcustom | [Hfrom Hto]]]; [by left | right; left | right; right].
  - by apply serve_customRates_grow.
  - split; by apply serve_baseRates_grow.
Qed.

(** X10: no sequence of calls takes a conversion away: if [getRate from to]
    returns a rate, it still returns one (perhaps another) after any
    sequence of [registerCurrency], [setCustomRate], [getRate] and
    [getSupportedCodes] calls. *)
Theorem getRate_success_stable (this : StaticRateProvider)
    (cs : list request) (from to : string) (rate : float) :
  getRate this from to = returns rate ->
  exists rate', getRate (serve_all this cs) from to = returns rate'.
Proof.
  intros Hrate. assert (Hex : exists r, getRate this from to = returns r)
    by eauto.
  clear Hrate. revert this Hex. unfold serve_all.
  induction cs as [| c cs IH]; intros this Hex; [done |].
  cbn [foldl]. apply IH. by apply serve_getRate_returns.
Qed.

Lemma getRate_success_stable_witness :
  exists rate',
    getRate
      (serve_all default
         [RegisterCurrency "EUR" 0; SetCustomRate "USD" "EUR" (-1);
          RegisterCurrency "CHF" 0.88])
      "USD" "EUR" = returns rate'.
Proof.
  apply (getRate_success_stable default _ "USD" "EUR" 0.92).
  vm_compute; reflexivity.
Defined.

Lemma new_supports_builtin (baseCode code : string) :
  code = baseCode \/ code ∈ seedCodes ->
  is_Some (baseRates (new baseCode) !! code).
Proof.
  unfold seedCodes. rewrite !elem_of_cons, elem_of_nil.
  cbn [new baseRates]. rewrite !lookup_insert_is_Some', lookup_empty.
  intros [-> | [-> | [-> | [-> | [-> | [-> | [-> | []]]]]]]]; auto 10.
Qed.

(** X11: the base code and the six seed codes stay supported, and any two of
    them stay convertible into each other, in every state reachable from a
    freshly constructed provider by any calls. *)
Theorem builtin_codes_convertible (baseCode : string)
    (this : StaticRateProvider) (from to : string) :
  reachable_by any_request baseCode this ->
  from = baseCode \/ from ∈ seedCodes ->
  to = baseCode \/ to ∈ seedCodes ->
  from ∈ getSupportedCodes this /\
  to ∈ getSupportedCodes this /\
  exists rate, getRate this from to = returns rate.
Proof.
  intros Hreach Hfrom Hto. rewrite !elem_of_getSupportedCodes.
  assert (Hboth : is_Some (baseRates this !! from)
                  /\ is_Some (baseRates this !! to)).
  { induction Hreach as [| this c _ [IHfrom IHto] _].
    - split; by apply new_supports_builtin.
    - split; by apply serve_baseRates_grow. }
  destruct Hboth as [Hsfrom Hsto]. split; [done |]. split; [done |].
  apply getRate_returns_iff. right; right. done.
Qed.

Lemma builtin_codes_convertible_witness :
  exists rate,
    getRate (serve (serve default (RegisterCurrency "CHF" 0.88))
                   (SetCustomRate "USD" "EUR" 0.95))
            "JPY" "USD" = returns rate.
Proof.
  apply (builtin_codes_convertible "USD" _ "JPY" "USD").
  - repeat apply reachable_serve; [apply reachable_new | exact I ..].
  - right. unfold seedCodes. set_solver.
  - by left.
Defined.

(** X12: in every state reachable by any calls, every rate in the override
    table is one [setCustomRate] accepted: no stored override is [<= 0.0],
    so no rate that [getRate] takes from an override is. *)
Theorem stored_overrides_accepted (baseCode : string)
    (this : StaticRateProvider) (from to : string) :
  reachable_by any_request baseCode this ->
  (forall key custom,
     customRates this !! key = Some custom -> (custom <=? 0)%float = false) /\
  (forall custom,
     from <> to ->
     customRates this !! makeKey from to = Some custom ->
     getRate this from to = returns custom /\ (custom <=? 0)%float = false).
Proof.
  intros Hreach.
  assert (Hinv : forall key custom,
             customRates this !! key = Some custom ->
             (custom <=? 0)%float = false).
  { induction Hreach as [| this c _ IH _]; [done |].
    destruct c as [code rateVsBase | A B rate | A B |]; try done.
    cbn [serve]. unfold setCustomRate.
    destruct (rate <=? 0)%float eqn:Hrate; cbn [snd customRates]; [done |].
    intros key custom. rewrite lookup_insert_Some.
    intros [[_ <-] | [_ Hkey]]; [done | by apply (IH key)]. }
  split; [exact Hinv |].
  intros custom Hne Hcustom. split; [| by apply (Hinv _ _ Hcustom)].
  rewrite getRate_distinct by done. by rewrite Hcustom.
Qed.

Lemma stored_overrides_accepted_witness :
  getRate (serve (serve default (SetCustomRate "USD" "EUR" 0.95))
                 (SetCustomRate "USD" "EUR" (-83)))
          "USD" "EUR" = returns 0.95%float /\
  (0.95 <=? 0)%float = false.
Proof.
  apply (stored_overrides_accepted "USD" _ "USD" "EUR");
    [| discriminate | vm_compute; reflexivity].
  repeat apply reachable_serve; [apply reachable_new | exact I ..].
Defined.

(** *** Rates the checks let through *)

Lemma div_zero_r (r : float) :
  (0 <? r)%float = true -> (r / 0)%float = infinity.
Proof.
  intros Hpos. apply Prim2SF_inj.
  rewrite div_spec, Prim2SF_infinity, Prim2SF_zero.
  rewrite ltb_spec, Prim2SF_zero in Hpos. unfold SFltb in Hpos.
  destruct (Prim2SF r) as [s | s | | s m e]; simpl in Hpos;
    try destruct s; done.
Qed.

Lemma mul_nan_l (r : float) : (nan * r)%float = nan.
Proof.
  apply Prim2SF_inj. rewrite mul_spec.
  change (Prim2SF nan) with S754_nan. reflexivity.
Qed.

(** X13: the test [rate <= 0.0] is false for NaN and for +infinity, so
    [setCustomRate] accepts both, and [getRate] then returns them for the
    pair. *)
Theorem setCustomRate_accepts_nonfinite (this : StaticRateProvider)
    (A B : string) (r : float) :
  r = nan \/ r = infinity ->
  A <> B ->
  fst (setCustomRate A B r this) = returns tt /\
  getRate (snd (setCustomRate A B r this)) A B = returns r.
Proof.
  intros Hr Hne.
  assert (Haccepted : (r <=? 0)%float = false)
    by (destruct Hr as [-> | ->]; vm_compute; reflexivity).
  rewrite setCustomRate_accepts by done. cbn [fst snd].
  split; [reflexivity |].
  rewrite getRate_distinct by done. cbn [customRates].
  by rewrite lookup_insert_eq.
Qed.

Lemma setCustomRate_accepts_nonfinite_witness :
  fst (setCustomRate "USD" "EUR" nan default) = returns tt /\
  getRate (snd (setCustomRate "USD" "EUR" nan default)) "USD" "EUR"
    = returns nan.
Proof.
  apply (setCustomRate_accepts_nonfinite default "USD" "EUR" nan);
    [by left | discriminate].
Defined.

(** X14: [registerCurrency] accepts the rate 0.0, and [getRate] does not guard
    the division: converting from a code registered with 0.0 to a code with
    a positive rate returns +infinity instead of failing. *)
Theorem registerCurrency_zero_rate (this : StaticRateProvider)
    (code to : string) (rateTo : float) :
  code <> to ->
  customRates this !! makeKey code to = None ->
  baseRates this !! to = Some rateTo ->
  (0 <? rateTo)%float = true ->
  getRate (registerCurrency code 0 this) code to = returns infinity.
Proof.
  intros Hne Hcustom Hto Hpos.
  rewrite getRate_distinct by done.
  cbn [registerCurrency customRates baseRates].
  rewrite Hcustom, lookup_insert_eq, lookup_insert_ne, Hto by done.
  by rewrite div_zero_r.
Qed.

Lemma registerCurrency_zero_rate_witness :
  getRate (registerCurrency "ZZZ" 0 default) "ZZZ" "EUR" = returns infinity.
Proof.
  apply (registerCurrency_zero_rate default "ZZZ" "EUR" 0.92);
    [discriminate | vm_compute; reflexivity ..].
Defined.

Section ConverterEdges.
Context {P : Type} `{ExchangeRateProvider.interface P}.
Variable rateProvider : P.

(** X15: [convert] rejects only amounts that compare below zero: a NaN amount
    and the amount -0.0 pass the test; with a NaN amount the result is NaN
    whatever rate [getRate] returns. *)
Theorem convert_unordered_amount (A B : string) (rate : float) :
  ExchangeRateProvider.getRate rateProvider A B = returns rate ->
  convert rateProvider A B nan = returns nan /\
  convert rateProvider A B (-0) = returns (-0 * rate)%float.
Proof.
  intros Hrate. unfold convert, convert_body.
  change (nan <? 0)%float with false. change (-0 <? 0)%float with false.
  cbn [perform]. rewrite Hrate. unfold returns. by rewrite mul_nan_l.
Qed.
End ConverterEdges.

Lemma convert_unordered_amount_witness :
  convert default "USD" "EUR" nan = returns nan /\
  convert default "USD" "EUR" (-0) = returns (-0 * 0.92)%float.
Proof.
  apply (convert_unordered_amount default "USD" "EUR" 0.92).
  vm_compute; reflexivity.
Defined.

(** ** The application *)

(** *** Codes as typed *)

Lemma toupper_has_lower (c : ascii) :
  ((97 <=? N_of_ascii (toupper c)) && (N_of_ascii (toupper c) <=? 122))%N
    = false.
Proof. destruct c as [[] [] [] [] [] [] [] []]; vm_compute; reflexivity. Qed.

Lemma toupper_fixed (c : ascii) :
  ((97 <=? N_of_ascii c) && (N_of_ascii c <=? 122))%N = false ->
  toupper c = c.
Proof. intros Hc. unfold toupper. cbv zeta. by rewrite Hc. Qed.

Lemma uppercase_has_lower (s : string) : has_lower (uppercase s) = false.
Proof.
  induction s as [| c s IH]; [done |].
  cbn [uppercase has_lower]. by rewrite toupper_has_lower, IH.
Qed.

Lemma uppercase_fixed (s : string) : has_lower s = false -> uppercase s = s.
Proof.
  induction s as [| c s IH]; [done |].
  cbn [uppercase has_lower]. intros [Hc Hs]%orb_false_elim.
  by rewrite toupper_fixed, IH.
Qed.

Lemma uppercase_idemp (s : string) : uppercase (uppercase s) = uppercase s.
Proof. apply uppercase_fixed, uppercase_has_lower. Qed.

Lemma uppercase_length (s : string) :
  String.length (uppercase s) = String.length s.
Proof. induction s as [| c s IH]; [done |]. cbn. by rewrite IH. Qed.

(** X16: the code [readCode] returns has as many bytes as the token typed and
    none of the bytes 'a' to 'z'; a token without such bytes is returned as
    typed (so '-' and '>' pass through), and reading the returned code
    again gives the same code. *)
Theorem readCode_uppercases (prompt token : string) :
  String.length (ConverterApp.readCode prompt token).2 = String.length token /\
  has_lower (ConverterApp.readCode prompt token).2 = false /\
  (has_lower token = false ->
   (ConverterApp.readCode prompt token).2 = token) /\
  (ConverterApp.readCode prompt (ConverterApp.readCode prompt token).2).2
    = (ConverterApp.readCode prompt token).2.
Proof.
  cbn [ConverterApp.readCode snd].
  split; [apply uppercase_length |]. split; [apply uppercase_has_lower |].
  split; [apply uppercase_fixed | apply uppercase_idemp].
Qed.

(** *** What the menu loop can change *)

Lemma handleConvert_after (this : ConverterApp) (e : entry) :
  after (ConverterApp.handleConvert this e) = this.
Proof.
  unfold ConverterApp.handleConvert, ConverterApp.readCode,
    ConverterApp.readDouble, ConverterApp.readNumber.
  by destruct (convert _ _ _ _).
Qed.

Lemma handleCustomRate_after (this : ConverterApp) (e : entry) :
  after (ConverterApp.handleCustomRate this e) =
    {| rateProvider :=
         snd (setCustomRate (uppercase (fromToken e)) (uppercase (toToken e))
                (number e) (rateProvider this));
       currencies := currencies this |}.
Proof.
  unfold ConverterApp.handleCustomRate, ConverterApp.readCode,
    ConverterApp.readDouble, ConverterApp.readNumber.
  by destruct (setCustomRate _ _ _ _) as [[ex | []] provider].
Qed.

(** Options 1 and 3 run their handlers; every other choice returns and
    leaves the application as it is. *)
Lemma dispatch_cases (this : ConverterApp) (e : entry) :
  (choice e = 1%Z /\
   ConverterApp.dispatch this e = ConverterApp.handleConvert this e) \/
  (choice e = 3%Z /\
   ConverterApp.dispatch this e = ConverterApp.handleCustomRate this e) \/
  (choice e <> 1%Z /\ choice e <> 3%Z /\
   result (ConverterApp.dispatch this e) = returns tt /\
   after (ConverterApp.dispatch this e) = this).
Proof.
  unfold ConverterApp.dispatch.
  destruct (choice e) as [| p | p]; [by right; right | | by right; right].
  repeat match goal with
         | |- context [match ?q with xH => _ | _ => _ end] => destruct q
         end;
    first [by left | by right; left | by right; right].
Qed.

Lemma dispatch_after (this : ConverterApp) (e : entry) :
  after (ConverterApp.dispatch this e) = this \/
  after (ConverterApp.dispatch this e) =
    {| rateProvider :=
         snd (setCustomRate (uppercase (fromToken e)) (uppercase (toToken e))
                (number e) (rateProvider this));
       currencies := currencies this |}.
Proof.
  destruct (dispatch_cases this e)
    as [[_ ->] | [[_ ->] | (_ & _ & _ & ->)]].
  - left. apply handleConvert_after.
  - right. apply handleCustomRate_after.
  - by left.
Qed.

Lemma pass_keeps_tables (this : ConverterApp) (e : entry) :
  currencies (ConverterApp.pass this e).1.2 = currencies this /\
  baseRates (rateProvider (ConverterApp.pass this e).1.2)
    = baseRates (rateProvider this) /\
  baseCurrencyCode (rateProvider (ConverterApp.pass this e).1.2)
    = baseCurrencyCode (rateProvider this).
Proof.
  unfold ConverterApp.pass, ConverterApp.readInt, ConverterApp.readNumber.
  cbn [fst snd].
  destruct (dispatch_after this e) as [-> | ->]; [done |].
  cbn [currencies rateProvider]. unfold setCustomRate.
  by destruct (number e <=? 0)%float.
Qed.

Lemma run_cons (this : ConverterApp) (e : entry) (rest : list entry) :
  ConverterApp.run this (e :: rest) =
    if (ConverterApp.pass this e).2
    then ((ConverterApp.pass this e).1.1
            ++ (ConverterApp.run (ConverterApp.pass this e).1.2 rest).1.1,
          (ConverterApp.run (ConverterApp.pass this e).1.2 rest).1.2,
          (ConverterApp.run (ConverterApp.pass this e).1.2 rest).2)%list
    else ((ConverterApp.pass this e).1.1
            ++ [Text (line "Goodbye!")],
          (ConverterApp.pass this e).1.2, true)%list.
Proof.
  cbn [ConverterApp.run].
  destruct (ConverterApp.pass this e) as [[out this'] running]. cbn [fst snd].
  destruct running; [| done].
  by destruct (ConverterApp.run this' rest) as [[out' this''] exited].
Qed.

Lemma run_tables (this : ConverterApp) (script : list entry) :
  currencies (ConverterApp.run this script).1.2 = currencies this /\
  baseRates (rateProvider (ConverterApp.run this script).1.2)
    = baseRates (rateProvider this) /\
  baseCurrencyCode (rateProvider (ConverterApp.run this script).1.2)
    = baseCurrencyCode (rateProvider this).
Proof.
  revert this. induction script as [| e rest IH]; intros this; [done |].
  rewrite run_cons.
  destruct (pass_keeps_tables this e) as (Hc & Hr & Hb).
  destruct (ConverterApp.pass this e).2; cbn [fst snd]; [| done].
  destruct (IH (ConverterApp.pass this e).1.2) as (Hc' & Hr' & Hb').
  by rewrite Hc', Hr', Hb'.
Qed.

Lemma getSupportedCodes_ext (this other : StaticRateProvider) :
  baseRates this = baseRates other ->
  getSupportedCodes this = getSupportedCodes other.
Proof. unfold getSupportedCodes. by intros ->. Qed.

Lemma listed_ext (this other : ConverterApp) :
  currencies this = currencies other ->
  ConverterApp.listed this = ConverterApp.listed other.
Proof. unfold ConverterApp.listed. by intros ->. Qed.

(** X17: whatever the user types, the menu loop never touches the currency
    catalogue, the rate table or the base code of its provider (only the
    override table can change), so the currencies listed and the codes
    supported are the same at the end of a session as at its start. *)
Theorem run_keeps_tables (this : ConverterApp) (script : list entry) :
  currencies (ConverterApp.run this script).1.2 = currencies this /\
  baseRates (rateProvider (ConverterApp.run this script).1.2)
    = baseRates (rateProvider this) /\
  baseCurrencyCode (rateProvider (ConverterApp.run this script).1.2)
    = baseCurrencyCode (rateProvider this) /\
  ConverterApp.listed (ConverterApp.run this script).1.2
    = ConverterApp.listed this /\
  getSupportedCodes (rateProvider (ConverterApp.run this script).1.2)
    = getSupportedCodes (rateProvider this).
Proof.
  destruct (run_tables this script) as (Hc & Hr & Hb).
  repeat split; try done.
  - by apply listed_ext.
  - by apply getSupportedCodes_ext.
Qed.

(** X18: however the session goes, option 2 lists exactly the codes the
    provider supports, in the same order, and the provider maps its base
    code "USD" to exactly 1.0. *)
Theorem main_lists_supported_codes (script : list entry) :
  Currency.getCode <$> ConverterApp.listed (ConverterApp.main script).1.2
    = getSupportedCodes (rateProvider (ConverterApp.main script).1.2) /\
  baseCurrencyCode (rateProvider (ConverterApp.main script).1.2) = "USD" /\
  baseRates (rateProvider (ConverterApp.main script).1.2) !! "USD"
    = Some 1.0%float.
Proof.
  unfold ConverterApp.main.
  destruct (run_tables ConverterApp.new script) as (Hc & Hr & Hb).
  rewrite (listed_ext _ _ Hc), (getSupportedCodes_ext _ _ Hr), Hr, Hb.
  repeat split; vm_compute; reflexivity.
Qed.

(** *** Errors *)

Lemma handleConvert_result (this : ConverterApp) (e : entry)
    (ex : exception) :
  result (ConverterApp.handleConvert this e) = throw ex ->
  ex = NegativeAmountError \/ ex = UnsupportedCurrencyError.
Proof.
  unfold ConverterApp.handleConvert, ConverterApp.readCode,
    ConverterApp.readDouble, ConverterApp.readNumber.
  unfold convert, convert_body.
  destruct (number e <? 0)%float; cbn [perform].
  - intros [= <-]. by left.
  - cbn [ExchangeRateProvider.getRate StaticRateProvider_interface].
    destruct (getRate (rateProvider this) _ _) as [ex' |] eqn:Hrate;
      cbn [result]; [| done].
    intros [= <-]. right.
    by apply (getRate_throw_inv (rateProvider this) _ _ _ Hrate).
Qed.

Lemma handleCustomRate_result (this : ConverterApp) (e : entry)
    (ex : exception) :
  result (ConverterApp.handleCustomRate this e) = throw ex ->
  ex = InvalidRateError /\ after (ConverterApp.handleCustomRate this e) = this.
Proof.
  unfold ConverterApp.handleCustomRate, ConverterApp.readCode,
    ConverterApp.readDouble, ConverterApp.readNumber.
  unfold setCustomRate.
  destruct (number e <=? 0)%float; cbn [result after]; [| done].
  intros [= <-]. split; [done |]. by destruct this.
Qed.

(** X19: an exception never leaves the menu loop. If the chosen action
    throws, the exception is one of the three errors of the core, the pass
    writes "Error: " and its message after what the action had written,
    the application is left as it was, and the loop goes on. *)
Theorem pass_reports_errors (this : ConverterApp) (e : entry)
    (ex : exception) :
  result (ConverterApp.dispatch this e) = throw ex ->
  (ex = NegativeAmountError \/ ex = UnsupportedCurrencyError
   \/ ex = InvalidRateError) /\
  ConverterApp.pass this e =
    ((ConverterApp.printMainMenu
        ++ (ConverterApp.readInt "Choose an option: "
              (choice_rejected e) (choice e)).1
        ++ [Text nl]
        ++ printed (ConverterApp.dispatch this e)
        ++ [Text "Error: "; Text (what ex); Text nl]
        ++ [Text (nl +:+ "Press ENTER to continue..."); Text nl])%list,
     this, true).
Proof.
  intros Hthrow. unfold ConverterApp.pass.
  unfold ConverterApp.readInt at 1, ConverterApp.readNumber at 1.
  rewrite Hthrow.
  destruct (dispatch_cases this e)
    as [[Hchoice Hd] | [[Hchoice Hd] | (_ & _ & Hres & _)]].
  - rewrite Hd in Hthrow |- *. rewrite Hchoice, handleConvert_after.
    split; [| reflexivity].
    destruct (handleConvert_result this e ex Hthrow) as [-> | ->]; auto.
  - rewrite Hd in Hthrow |- *. rewrite Hchoice.
    destruct (handleCustomRate_result this e ex Hthrow) as [-> ->].
    split; [auto | reflexivity].
  - rewrite Hres in Hthrow. discriminate.
Qed.

Lemma pass_reports_errors_witness :
  ConverterApp.pass ConverterApp.new (mkEntry 0 1 "usd" "eur" 0 (-5)) =
    ((ConverterApp.printMainMenu
        ++ [Text "Choose an option: "; Text nl;
            Text (line "--- Convert Amount ---");
            Text "From currency code (e.g. USD): ";
            Text "To currency code (e.g. INR): ";
            Text "Amount: ";
            Text "Error: "; Text "Amount cannot be negative"; Text nl;
            Text (nl +:+ "Press ENTER to continue..."); Text nl])%list,
     ConverterApp.new, true).
Proof.
  apply (pass_reports_errors ConverterApp.new
           (mkEntry 0 1 "usd" "eur" 0 (-5)) NegativeAmountError).
  vm_compute; reflexivity.
Defined.

(** X20: codes are case-insensitive at the menu: two entries that differ only
    in the letter case of their tokens make a pass write the same, leave
    the same application and continue alike. *)
Theorem codes_case_insensitive (this : ConverterApp) (e e' : entry) :
  uppercase (fromToken e) = uppercase (fromToken e') ->
  uppercase (toToken e) = uppercase (toToken e') ->
  choice_rejected e = choice_rejected e' ->
  choice e = choice e' ->
  number_rejected e = number_rejected e' ->
  number e = number e' ->
  ConverterApp.pass this e = ConverterApp.pass this e'.
Proof.
  intros Hfrom Hto Hcr Hc Hnr Hn.
  unfold ConverterApp.pass, ConverterApp.dispatch,
    ConverterApp.handleConvert, ConverterApp.handleCustomRate,
    ConverterApp.readCode, ConverterApp.readInt, ConverterApp.readDouble,
    ConverterApp.readNumber.
  by rewrite Hfrom, Hto, Hcr, Hc, Hnr, Hn.
Qed.

Lemma codes_case_insensitive_witness :
  ConverterApp.pass ConverterApp.new (mkEntry 0 1 "usd" "Eur" 0 100)
    = ConverterApp.pass ConverterApp.new (mkEntry 0 1 "USD" "eUR" 0 100).
Proof.
  apply (codes_case_insensitive ConverterApp.new
           (mkEntry 0 1 "usd" "Eur" 0 100) (mkEntry 0 1 "USD" "eUR" 0 100));
    reflexivity.
Defined.

(** *** Converting at the menu *)

Lemma shown_code (catalogue : gmap string Currency.t) (code : string) :
  keyed_by_code catalogue ->
  match catalogue !! code with
  | Some c => Currency.getCode c
  | None => code
  end = code.
Proof.
  intros Hkeyed. destruct (catalogue !! code) as [c |] eqn:Hc; [| done].
  by apply Hkeyed.
Qed.

Lemma registerCurrency_keyed (currency : Currency.t) (this : ConverterApp) :
  keyed_by_code (currencies this) ->
  keyed_by_code (currencies (ConverterApp.registerCurrency currency this)).
Proof.
  intros Hkeyed key c. cbn [ConverterApp.registerCurrency currencies].
  rewrite lookup_insert_Some. intros [[<- <-] | [_ Hc]]; [done |].
  by apply Hkeyed.
Qed.

Lemma new_keyed : keyed_by_code (currencies ConverterApp.new).
Proof.
  unfold ConverterApp.new, ConverterApp.seedCurrencies.
  repeat apply registerCurrency_keyed. intros key c. cbn [currencies].
  by rewrite lookup_empty.
Qed.

(** X21: when the catalogue stores every entry under its own code, the amount
    is not below zero and [getRate] returns a rate for the two codes in
    upper case, option 1 writes its prompts and then the line
    "amount FROM = amount * rate TO", with the codes in upper case whether
    or not the catalogue has them, and leaves the application as it is. *)
Theorem handleConvert_prints (this : ConverterApp) (e : entry) (rate : float) :
  keyed_by_code (currencies this) ->
  (number e <? 0)%float = false ->
  getRate (rateProvider this) (uppercase (fromToken e))
          (uppercase (toToken e)) = returns rate ->
  ConverterApp.handleConvert this e =
    {| printed :=
         ([Text (line "--- Convert Amount ---");
           Text "From currency code (e.g. USD): ";
           Text "To currency code (e.g. INR): "]
          ++ (ConverterApp.readDouble "Amount: "
                (number_rejected e) (number e)).1
          ++ [Text nl; Fixed2 (number e); Text " ";
              Text (uppercase (fromToken e)); Text " = ";
              Fixed2 (number e * rate); Text " ";
              Text (uppercase (toToken e)); Text nl])%list;
       result := returns tt;
       after := this |}.
Proof.
  intros Hkeyed Hamount Hrate.
  unfold ConverterApp.handleConvert, ConverterApp.readCode,
    ConverterApp.readDouble, ConverterApp.readNumber.
  unfold convert, convert_body. rewrite Hamount. cbn [perform].
  cbn [ExchangeRateProvider.getRate StaticRateProvider_interface].
  rewrite Hrate. cbn [returns].
  rewrite !shown_code by done. cbn [fst]. f_equal.
Qed.

Lemma handleConvert_prints_witness :
  ConverterApp.handleConvert ConverterApp.new
      (mkEntry 0 1 "usd" "eur" 0 100) =
    {| printed :=
         [Text (line "--- Convert Amount ---");
          Text "From currency code (e.g. USD): ";
          Text "To currency code (e.g. INR): "; Text "Amount: ";
          Text nl; Fixed2 100; Text " "; Text "USD"; Text " = ";
          Fixed2 (100 * 0.92); Text " "; Text "EUR"; Text nl];
       result := returns tt;
       after := ConverterApp.new |}.
Proof.
  apply (handleConvert_prints ConverterApp.new
           (mkEntry 0 1 "usd" "eur" 0 100) 0.92);
    [apply new_keyed | vm_compute; reflexivity ..].
Defined.

(** X22: a custom rate entered at option 3 is the rate option 1 uses from
    then on: for two different codes and a rate above zero, option 3
    returns normally, and a later conversion of the same two codes, in any
    letter case, writes [amount * rate] whatever the rate table says. *)
Theorem custom_rate_then_convert (this : ConverterApp) (e1 e2 : entry) :
  keyed_by_code (currencies this) ->
  uppercase (fromToken e1) <> uppercase (toToken e1) ->
  uppercase (fromToken e2) = uppercase (fromToken e1) ->
  uppercase (toToken e2) = uppercase (toToken e1) ->
  (0 <? number e1)%float = true ->
  (number e2 <? 0)%float = false ->
  result (ConverterApp.handleCustomRate this e1) = returns tt /\
  ConverterApp.handleConvert
      (after (ConverterApp.handleCustomRate this e1)) e2 =
    {| printed :=
         ([Text (line "--- Convert Amount ---");
           Text "From currency code (e.g. USD): ";
           Text "To currency code (e.g. INR): "]
          ++ (ConverterApp.readDouble "Amount: "
                (number_rejected e2) (number e2)).1
          ++ [Text nl; Fixed2 (number e2); Text " ";
              Text (uppercase (fromToken e1)); Text " = ";
              Fixed2 (number e2 * number e1); Text " ";
              Text (uppercase (toToken e1)); Text nl])%list;
       result := returns tt;
       after := after (ConverterApp.handleCustomRate this e1) |}.
Proof.
  intros Hkeyed Hne Hfrom Hto Hrate Hamount.
  pose proof (ltb_zero_not_leb _ Hrate) as Haccepted.
  split.
  - unfold ConverterApp.handleCustomRate, ConverterApp.readCode,
      ConverterApp.readDouble, ConverterApp.readNumber.
    by rewrite setCustomRate_accepts.
  - rewrite handleCustomRate_after, setCustomRate_accepts by done.
    cbn [snd].
    unfold ConverterApp.handleConvert, ConverterApp.readCode,
      ConverterApp.readDouble, ConverterApp.readNumber.
    unfold convert, convert_body. rewrite Hamount. cbn [perform].
    cbn [ExchangeRateProvider.getRate StaticRateProvider_interface
         rateProvider currencies].
    rewrite Hfrom, Hto, getRate_distinct by done.
    cbn [customRates]. rewrite lookup_insert_eq. cbn [returns].
    rewrite !shown_code by done. reflexivity.
Qed.

Lemma custom_rate_then_convert_witness :
  result (ConverterApp.handleCustomRate ConverterApp.new
            (mkEntry 0 3 "usd" "eur" 0 0.95)) = returns tt /\
  printed
    (ConverterApp.handleConvert
       (after (ConverterApp.handleCustomRate ConverterApp.new
                 (mkEntry 0 3 "usd" "eur" 0 0.95)))
       (mkEntry 0 1 "USD" "Eur" 0 100)) =
    [Text (line "--- Convert Amount ---");
     Text "From currency code (e.g. USD): ";
     Text "To currency code (e.g. INR): "; Text "Amount: ";
     Text nl; Fixed2 100; Text " "; Text "USD"; Text " = ";
     Fixed2 (100 * 0.95); Text " "; Text "EUR"; Text nl].
Proof.
  destruct (custom_rate_then_convert ConverterApp.new
              (mkEntry 0 3 "usd" "eur" 0 0.95)
              (mkEntry 0 1 "USD" "Eur" 0 100)) as [Hset Hconvert];
    [apply new_keyed | discriminate | reflexivity | reflexivity
    | vm_compute; reflexivity | vm_compute; reflexivity |].
  split; [exact Hset |]. rewrite Hconvert. reflexivity.
Defined.

(** *** Leaving the loop *)

Lemma pass_running (this : ConverterApp) (e : entry) :
  (ConverterApp.pass this e).2 = negb (choice e =? 0)%Z.
Proof. reflexivity. Qed.

Lemma run_app_exit (this : ConverterApp) (pre rest : list entry) (e : entry) :
  choice e = 0%Z ->
  ConverterApp.run this (pre ++ e :: rest) = ConverterApp.run this (pre ++ [e]).
Proof.
  intros Hexit. revert this.
  induction pre as [| e' pre IH]; intros this.
  - cbn [app]. rewrite !run_cons, pass_running, Hexit. reflexivity.
  - cbn [app]. rewrite !run_cons.
    destruct (ConverterApp.pass this e').2; [| done]. by rewrite IH.
Qed.

(** X23: the loop is left exactly when option 0 is chosen: a session ends
    with the farewell as its last output if and only if some entry chooses
    0, and nothing typed after that entry is read. *)
Theorem run_leaves_at_zero (this : ConverterApp) (script : list entry) :
  ((ConverterApp.run this script).2 = true
     <-> Exists (λ e, choice e = 0%Z) script) /\
  ((ConverterApp.run this script).2 = true ->
   last (ConverterApp.run this script).1.1 = Some (Text (line "Goodbye!"))) /\
  (forall pre e rest,
     script = (pre ++ e :: rest)%list -> choice e = 0%Z ->
     ConverterApp.run this script = ConverterApp.run this (pre ++ [e])).
Proof.
  split; [| split].
  - revert this. induction script as [| e rest IH]; intros this.
    + cbn. split; [done | by intros ?%Exists_nil].
    + rewrite run_cons, pass_running, Exists_cons.
      destruct (choice e =? 0)%Z eqn:Hc; cbn [negb fst snd].
      * apply Z.eqb_eq in Hc. split; [by left | done].
      * apply Z.eqb_neq in Hc. rewrite IH. split; [by right |].
        by intros [? | ?].
  - revert this. induction script as [| e rest IH]; intros this; [done |].
    rewrite run_cons.
    destruct (ConverterApp.pass this e).2; cbn [fst snd].
    + intros Hexit. specialize (IH _ Hexit).
      destruct (ConverterApp.run (ConverterApp.pass this e).1.2 rest).1.1
        as [| o outs] eqn:Hout; [done |].
      by rewrite last_app, IH.
    + intros _. by rewrite last_snoc.
  - intros pre e rest -> Hexit. by apply run_app_exit.
Qed.
